(** * Player similarity by nearest neighbours

    A shallow embedding of [similarity_comp] from [similarities.ipynb]:
    the function fits scikit-learn's [NearestNeighbors] on the four
    cluster-distance columns of a pandas table, looks the queried
    player-season up by an exact filter, asks for its ten nearest
    neighbours and prints their [player] and [season] columns.

    The notebook's tables live in module-level variables and are passed
    by reference, so the embedding threads a world (the variables and
    the printed output) through a small exception monad.  Numeric cells
    are rationals; NaN cells are outside the model.

    Which rows the library ranks nearest is decided by its float64
    evaluation of the distances, by the search structure it picks for
    the table size and by its order among rows at equal distance.  The
    ranking below, exact squared distances with ties by row position,
    stands for one such outcome and is what the worked examples on small
    tables run.  The general properties proved here do not depend on
    which rows it prefers: they use only that the search answers a query
    of the fitted width with the requested number of distinct positions
    of the fitted rows. *)

From Stdlib Require Import QArith.
From stdpp Require Import gmap strings list sorting pretty.

(** ** Python values that reach the comparison *)

Inductive PyVal : Type :=
  | PyInt (z : Z)
  | PyStr (s : string).

Global Instance PyVal_eq_dec : EqDecision PyVal.
Proof. solve_decision. Defined.

(** [str(v)]: decimal digits for an integer, the text itself for text. *)
Definition str (v : PyVal) : string :=
  match v with
  | PyInt z => pretty z
  | PyStr s => s
  end.

(** [a == b] on scalars: an integer and a text never compare equal. *)
Definition py_eq (a b : PyVal) : bool :=
  match a, b with
  | PyInt x, PyInt y => bool_decide (x = y)
  | PyStr x, PyStr y => bool_decide (x = y)
  | _, _ => false
  end.

(** ** The feature table *)

(** One row of [fw] / [mf]: the identity columns and the numeric
    columns labelled 0, 1, 2, 3. *)
Record Row : Type := mkRow {
  player : string;
  season : PyVal;
  c0 : Q;
  c1 : Q;
  c2 : Q;
  c3 : Q
}.

Abbreviation DataFrame := (list Row).
Abbreviation Matrix := (list (list Q)).
Abbreviation Identity := (string * PyVal)%type.

(** The cells of a row under [[0, 1, 2, 3]]. *)
Definition features (r : Row) : list Q := [c0 r; c1 r; c2 r; c3 r].

(** The cells of a row under [["player", "season"]]. *)
Definition identity (r : Row) : Identity := (player r, season r).

(** ** Exceptions, outcomes and the world *)

Inductive Reason : Type :=
  | ZeroSamples                          (* Found array with 0 sample(s) *)
  | ZeroFeatures                         (* Found array with 0 feature(s) *)
  | ExpectedPositive (n : Z)             (* Expected n_neighbors > 0 *)
  | TooManyNeighbors (n_samples : nat) (n : Z)
                                         (* Expected n_neighbors <= n_samples *)
  | IncompatibleDimension (got expected : nat).
                                         (* query dimension differs from fit *)

Inductive Exception : Type :=
  | ValueError (why : Reason)
  | IndexError (i : nat)
  | NameError (x : string).

Inductive Outcome (A : Type) : Type :=
  | Return (a : A)
  | Raise (e : Exception).
Arguments Return {A} a.
Arguments Raise {A} e.

(** Module-level variables holding tables, and what [print] has written. *)
Record World : Type := mkWorld {
  globals : gmap string (list Row);
  stdout : list (list Identity)
}.

Definition Py (A : Type) : Type := World → Outcome A * World.

Global Instance Py_ret : MRet Py := λ A a w, (Return a, w).
Global Instance Py_bind : MBind Py := λ A B f m w,
  match m w with
  | (Return a, w') => f a w'
  | (Raise e, w') => (Raise e, w')
  end.

Definition lift {A} (o : Outcome A) : Py A := λ w, (o, w).

(** Reading the table a variable refers to. *)
Definition deref (df : string) : Py DataFrame := λ w,
  match globals w !! df with
  | Some T => (Return T, w)
  | None => (Raise (NameError df), w)
  end.

Definition print (x : list Identity) : Py unit := λ w,
  (Return tt, {| globals := globals w; stdout := stdout w ++ [x] |}).

(** ** pandas *)

(** [df[[0, 1, 2, 3]]] followed by the conversion to an array. *)
Definition df_features (df : string) : Py Matrix :=
  T ← deref df; mret (features <$> T).

(** [df.loc[mask]]: the rows whose mask entry is true, in table order. *)
Definition df_loc (df : string) (mask : Row → bool) : Py DataFrame :=
  T ← deref df; mret (filter (λ r, mask r = true) T).

(** [df.iloc[positions]]: rows by position. *)
Fixpoint take_rows (T : DataFrame) (positions : list nat) : Outcome DataFrame :=
  match positions with
  | [] => Return []
  | i :: rest =>
      match T !! i with
      | None => Raise (IndexError i)
      | Some r =>
          match take_rows T rest with
          | Return rs => Return (r :: rs)
          | Raise e => Raise e
          end
      end
  end.

Definition df_iloc (df : string) (positions : list nat) : Py DataFrame :=
  T ← deref df; lift (take_rows T positions).

(** [.ravel()] of a two-dimensional array; [.tolist()] and [.to_numpy()]
    change the container only. *)
Definition ravel {A} (m : list (list A)) : list A := concat m.

(** ** scikit-learn *)

Record Params : Type := mkParams {
  n_neighbors : Z;
  radius : Q
}.

Record Fitted : Type := mkFitted {
  params : Params;
  fit_X : Matrix
}.

(** [NearestNeighbors(n_neighbors=..., radius=...).fit(X)]: the array
    must have a row, the count must be positive; the training rows are
    kept.  A count above the number of rows is accepted here and only
    refused by [kneighbors]. *)
Definition fit (p : Params) (X : Matrix) : Outcome Fitted :=
  if bool_decide (length X = 0) then Raise (ValueError ZeroSamples)
  else if bool_decide (n_neighbors p ≤ 0)%Z
       then Raise (ValueError (ExpectedPositive (n_neighbors p)))
  else Return {| params := p; fit_X := X |}.

(** Squared Euclidean distance, in exact arithmetic. *)
Definition sqdist (a b : list Q) : Q :=
  foldr Qplus 0%Q (zip_with (λ x y, (x - y) * (x - y))%Q a b).

(** Ascending distance, equal distances by row position: one way of
    ordering the fitted rows, where the library leaves ties open. *)
Definition nearerb (a b : nat * Q) : bool :=
  match (a.2 ?= b.2)%Q with
  | Lt => true
  | Eq => bool_decide (a.1 ≤ b.1)
  | Gt => false
  end.

Definition nearer (a b : nat * Q) : Prop := nearerb a b.

(** Every training row with its squared distance to the query. *)
Definition distances (X : Matrix) (q : list Q) : list (nat * Q) :=
  imap (λ i v, (i, sqdist q v)) X.

Definition argsort_nearest (X : Matrix) (q : list Q) (k : nat) : list nat :=
  fst <$> take k (merge_sort nearer (distances X q)).

(** [est.kneighbors(queries, n, return_distance=False)] for a list of
    query vectors of one common length.  The checks come in the library's
    order: the count is positive, the query array has a row and a
    feature, the query has the fitted width, the count does not exceed
    the fitted rows.  Releases of the library differ in the order of the
    last two checks, which shows only for a query of the wrong width
    against fewer fitted rows than the count; no statement below depends
    on it.  The radius of the estimator is not read. *)
Definition kneighbors (est : Fitted) (queries : Matrix) (n : Z)
  : Outcome (list (list nat)) :=
  if bool_decide (n ≤ 0)%Z then Raise (ValueError (ExpectedPositive n))
  else
    let n_features := from_option length 0 (head queries) in
    let n_fit := from_option length 0 (head (fit_X est)) in
    if bool_decide (length queries = 0) then Raise (ValueError ZeroSamples)
    else if bool_decide (n_features = 0) then Raise (ValueError ZeroFeatures)
    else if bool_decide (n_features ≠ n_fit)
         then Raise (ValueError (IncompatibleDimension n_features n_fit))
    else if bool_decide (Z.of_nat (length (fit_X est)) < n)%Z
         then Raise (ValueError (TooManyNeighbors (length (fit_X est)) n))
    else Return ((λ q, argsort_nearest (fit_X est) q (Z.to_nat n)) <$> queries).

(** ** The notebook's function *)

(** The row filter of the lookup: the player argument goes through
    [str], the season argument is compared as given. *)
Definition matches (player_name player_season : PyVal) (r : Row) : bool :=
  bool_decide (player r = str player_name) && py_eq (season r) player_season.

(** The body of [similarity_comp], with the radius literal as a parameter. *)
Definition similarity_comp_radius (rad : Q)
    (df : string) (player_name player_season : PyVal) : Py unit :=
  X ← df_features df;
  n_nbrs ← lift (fit {| n_neighbors := 10; radius := rad |} X);
  sel ← df_loc df (matches player_name player_season);
  let x := ravel (features <$> sel) in
  x ← lift (kneighbors n_nbrs [x] 10);
  rows ← df_iloc df (ravel x);
  let x := identity <$> rows in
  print x.

Definition similarity_comp : string → PyVal → PyVal → Py unit :=
  similarity_comp_radius (4 # 10).

(** ** A small table to run on *)

Definition row (p : string) (s : Z) (a b c d : Z) : Row :=
  mkRow p (PyInt s) (inject_Z a) (inject_Z b) (inject_Z c) (inject_Z d).

Definition demo : DataFrame :=
  [ row "A" 1920 0 0 0 0; row "B" 1920 5 0 0 0; row "C" 1920 1 0 0 0;
    row "D" 1920 9 0 0 0; row "E" 1920 2 0 0 0; row "F" 1920 8 0 0 0;
    row "G" 1920 3 0 0 0; row "H" 1920 7 0 0 0; row "I" 1920 4 0 0 0;
    row "J" 1920 6 0 0 0; row "K" 1920 10 0 0 0; row "A" 1819 1 1 0 0 ].

Definition world_of (T : DataFrame) : World :=
  {| globals := {[ "fw" := T ]}; stdout := [] |}.


(** ** Notions the statements use *)

Definition ranking (X : Matrix) (q : list Q) : list (nat * Q) :=
  merge_sort nearer (distances X q).

Definition query_vector (T : DataFrame) (p s : PyVal) : list Q :=
  ravel (features <$> filter (λ r, matches p s r = true) T).

(** The identity names exactly one row of the table. *)
Definition occurs_once (T : DataFrame) (p s : PyVal) : Prop :=
  length (filter (λ r, matches p s r = true) T) = 1.

(** The positions the search returns for the vector of row [r0]. *)
Definition neighbours (T : DataFrame) (r0 : Row) : list nat :=
  argsort_nearest (features <$> T) (features r0) 10.

(** Eleven player-seasons with one and the same feature vector. *)
Definition crowd : DataFrame :=
  [ row "A" 1920 1 2 3 4; row "B" 1920 1 2 3 4; row "C" 1920 1 2 3 4;
    row "D" 1920 1 2 3 4; row "E" 1920 1 2 3 4; row "F" 1920 1 2 3 4;
    row "G" 1920 1 2 3 4; row "H" 1920 1 2 3 4; row "I" 1920 1 2 3 4;
    row "J" 1920 1 2 3 4; row "K" 1920 1 2 3 4 ].

(** Outcome and printed frames of a call, as a function of what the
    table variable holds. *)
Definition answer (rad : Q) (df : string) (held : option DataFrame)
    (p s : PyVal) : Outcome unit * list (list Identity) :=
  match held with
  | None => (Raise (NameError df), [])
  | Some T =>
      match fit {| n_neighbors := 10; radius := rad |} (features <$> T) with
      | Raise e => (Raise e, [])
      | Return est =>
          match kneighbors est [query_vector T p s] 10 with
          | Raise e => (Raise e, [])
          | Return x =>
              match take_rows T (ravel x) with
              | Raise e => (Raise e, [])
              | Return rows => (Return tt, [identity <$> rows])
              end
          end
      end
  end.

(** The frames a call appended to the output. *)
Definition new_output (w : World) (res : Outcome unit * World)
  : list (list Identity) :=
  drop (length (stdout w)) (stdout res.2).

(** The error kinds the specification names. *)
Inductive ErrorKind : Type :=
  | MalformedInput | NotFound | AmbiguousMatch | InvalidK | DimensionMismatch.

(** The kind each library check stands for: an array without rows is
    malformed input, a neighbour count that is not positive or exceeds
    the number of fitted rows is an invalid k, a query whose length is
    zero or differs from the fitted dimension is a dimension mismatch.
    No check of the function looks for a missing or a repeated identity. *)
Definition kind_of (e : Exception) : option ErrorKind :=
  match e with
  | ValueError ZeroSamples => Some MalformedInput
  | ValueError ZeroFeatures => Some DimensionMismatch
  | ValueError (ExpectedPositive _) => Some InvalidK
  | ValueError (TooManyNeighbors _ _) => Some InvalidK
  | ValueError (IncompatibleDimension _ _) => Some DimensionMismatch
  | IndexError _ => None
  | NameError _ => None
  end.

Definition fails_with {A} (k : ErrorKind) (o : Outcome A) : Prop :=
  ∃ e, o = Raise e ∧ kind_of e = Some k.


(** The twelve-row table with the first row entered a second time. *)
Definition doubled : DataFrame := demo ++ [row "A" 1920 7 7 7 7].

(** ** The cells that call the function *)

(** A cell [similarity_comp(df, name, season)]. *)
Record Call : Type := mkCall {
  call_df : string;
  call_player : PyVal;
  call_season : PyVal
}.

Definition run_call (c : Call) : Py unit :=
  similarity_comp (call_df c) (call_player c) (call_season c).

(** Cells run one after another in one kernel: each starts in the world
    the previous one left, and an exception ends its own cell only. *)
Fixpoint session (cs : list Call) (w : World) : World :=
  match cs with
  | [] => w
  | c :: cs => session cs (run_call c w).2
  end.

(** A cell whose table is bound and has at least ten rows, and whose
    identity occurs exactly once in it. *)
Definition printing_cell (w : World) (c : Call) : Prop :=
  ∃ T, globals w !! call_df c = Some T ∧
       occurs_once T (call_player c) (call_season c) ∧ 10 ≤ length T.

(** The six example cells, forwards first. *)
Definition example_cells : list Call :=
  [ mkCall "fw" (PyStr "Robert Lewandowski") (PyInt 1920);
    mkCall "fw" (PyStr "Jadon Sancho") (PyInt 1920);
    mkCall "fw" (PyStr "Lionel Messi") (PyInt 1920);
    mkCall "mf" (PyStr "Jorginho") (PyInt 1920);
    mkCall "mf" (PyStr "Joshua Kimmich") (PyInt 1920);
    mkCall "mf" (PyStr "Kevin De Bruyne") (PyInt 1920) ].

(** Two small position groups holding the players of the example cells. *)
Definition forwards : DataFrame :=
  [ row "Robert Lewandowski" 1920 1 9 8 7; row "Karim Benzema" 1920 2 9 8 7;
    row "Jadon Sancho" 1920 9 1 8 7; row "Dimitri Payet" 1920 9 2 8 7;
    row "Lionel Messi" 1920 9 8 1 7; row "Neymar" 1718 9 8 2 7;
    row "Lionel Messi" 1819 9 8 3 7; row "Luis Suarez" 1718 3 9 8 7;
    row "Paulo Dybala" 1920 9 3 8 7; row "Riyad Mahrez" 1920 9 8 4 7;
    row "Duvan Zapata" 1819 4 9 8 7 ].

Definition midfielders : DataFrame :=
  [ row "Jorginho" 1920 1 9 8 7; row "Lucas Leiva" 1718 2 9 8 7;
    row "Joshua Kimmich" 1920 9 1 8 7; row "Paul Pogba" 1920 9 2 8 7;
    row "Kevin De Bruyne" 1920 9 8 1 7; row "David Silva" 1920 9 8 2 7;
    row "Kevin De Bruyne" 1819 9 8 3 7; row "Sergio Busquets" 1920 3 9 8 7;
    row "Toni Kroos" 1920 9 3 8 7; row "Isco" 1718 9 8 4 7 ].

Definition notebook_world : World :=
  {| globals := {[ "fw" := forwards; "mf" := midfielders ]}; stdout := [] |}.

(** ** The function on small tables *)

Example demo_neighbours_of_A :
  similarity_comp "fw" (PyStr "A") (PyInt 1920) (world_of demo) =
    (Return tt,
     {| globals := {[ "fw" := demo ]};
        stdout := [ [ ("A", PyInt 1920); ("C", PyInt 1920); ("A", PyInt 1819);
                      ("E", PyInt 1920); ("G", PyInt 1920); ("I", PyInt 1920);
                      ("B", PyInt 1920); ("J", PyInt 1920); ("H", PyInt 1920);
                      ("F", PyInt 1920) ] ] |}).
Proof. reflexivity. Qed.

Example nine_rows_are_too_few :
  similarity_comp "fw" (PyStr "A") (PyInt 1920) (world_of (take 9 demo)) =
    (Raise (ValueError (TooManyNeighbors 9 10)), world_of (take 9 demo)).
Proof. reflexivity. Qed.

Example season_given_as_text :
  similarity_comp "fw" (PyStr "A") (PyStr "1920") (world_of demo) =
    (Raise (ValueError ZeroFeatures), world_of demo).
Proof. reflexivity. Qed.

Example unbound_table_variable :
  similarity_comp "mf" (PyStr "A") (PyInt 1920) (world_of demo) =
    (Raise (NameError "mf"), world_of demo).
Proof. reflexivity. Qed.

(** ** The distance table and its ranking *)

Section ranking.
Context (X : Matrix) (q : list Q).

Lemma distances_lookup (i : nat) :
  distances X q !! i = (λ v, (i, sqdist q v)) <$> X !! i.
Proof. unfold distances. by rewrite list_lookup_imap. Qed.

Lemma distances_fst : (distances X q).*1 = seq 0 (length X).
Proof.
  unfold distances. rewrite fmap_imap. simpl.
  apply list_eq. intros i. rewrite list_lookup_imap.
  destruct (X !! i) as [v|] eqn:E; simpl.
  - symmetry. apply lookup_seq. split; [done|]. by eapply lookup_lt_Some.
  - symmetry. apply lookup_seq_ge. by apply lookup_ge_None.
Qed.

Lemma distances_elem (a : nat * Q) :
  a ∈ distances X q ↔ ∃ v, X !! a.1 = Some v ∧ a.2 = sqdist q v.
Proof.
  rewrite list_elem_of_lookup. split.
  - intros [i Hi]. rewrite distances_lookup in Hi.
    destruct (X !! i) as [v|] eqn:E; simplify_eq/=. eauto.
  - intros (v & Hv & Hd). exists a.1. rewrite distances_lookup, Hv.
    simpl. by rewrite <- Hd; destruct a.
Qed.

Lemma ranking_perm : ranking X q ≡ₚ distances X q.
Proof. apply merge_sort_Permutation. Qed.

Lemma ranking_length : length (ranking X q) = length X.
Proof.
  rewrite (Permutation_length ranking_perm).
  unfold distances. by rewrite length_imap.
Qed.

Lemma ranking_NoDup_fst : NoDup (ranking X q).*1.
Proof.
  rewrite (fmap_Permutation fst _ _ ranking_perm), distances_fst.
  apply NoDup_seq.
Qed.

Lemma ranking_elem (a : nat * Q) :
  a ∈ ranking X q ↔ ∃ v, X !! a.1 = Some v ∧ a.2 = sqdist q v.
Proof. by rewrite ranking_perm, distances_elem. Qed.

(** ** What the neighbour search returns *)

Lemma argsort_ranking (k : nat) :
  argsort_nearest X q k = (take k (ranking X q)).*1.
Proof. done. Qed.

Lemma argsort_length (k : nat) :
  length (argsort_nearest X q k) = k `min` length X.
Proof.
  by rewrite argsort_ranking, length_fmap, length_take, ranking_length.
Qed.

Lemma argsort_NoDup (k : nat) :
  NoDup (argsort_nearest X q k).
Proof.
  rewrite argsort_ranking, fmap_take.
  pose proof ranking_NoDup_fst as H.
  rewrite <- (take_drop k (ranking X q).*1) in H.
  by apply NoDup_app in H as [H _].
Qed.

Lemma argsort_lookup (k n i : nat) :
  argsort_nearest X q k !! n = Some i →
  n < k ∧ ∃ v, X !! i = Some v ∧ ranking X q !! n = Some (i, sqdist q v).
Proof.
  rewrite argsort_ranking, list_lookup_fmap. intros H.
  destruct (take k (ranking X q) !! n) as [[j d]|] eqn:E; simplify_eq/=.
  apply lookup_take_Some in E as [E Hn]. split; [done|].
  assert ((i, d) ∈ ranking X q) as Hin by (by eapply list_elem_of_lookup_2).
  apply ranking_elem in Hin as (v & Hv & Hd). simpl in *. subst d. eauto.
Qed.

Lemma argsort_elem (k i : nat) :
  i ∈ argsort_nearest X q k → i < length X.
Proof.
  intros [n Hn]%list_elem_of_lookup.
  apply argsort_lookup in Hn as (_ & v & Hv & _). by eapply lookup_lt_Some.
Qed.

End ranking.

(** ** Running the function *)

Lemma similarity_comp_run rad df p s w T :
  globals w !! df = Some T →
  similarity_comp_radius rad df p s w =
    match fit {| n_neighbors := 10; radius := rad |} (features <$> T) with
    | Raise e => (Raise e, w)
    | Return est =>
        match kneighbors est [query_vector T p s] 10 with
        | Raise e => (Raise e, w)
        | Return x =>
            match take_rows T (ravel x) with
            | Raise e => (Raise e, w)
            | Return rows =>
                (Return tt,
                 {| globals := globals w;
                    stdout := stdout w ++ [identity <$> rows] |})
            end
        end
    end.
Proof.
  intros HT.
  unfold similarity_comp_radius, df_features, df_loc, df_iloc, deref, lift,
    print, query_vector, mbind, mret, Py_bind, Py_ret.
  rewrite HT; simpl.
  destruct (fit _ _) as [est|e]; [|done].
  rewrite HT; simpl.
  destruct (kneighbors _ _ _) as [x|e]; [|done].
  rewrite HT; simpl.
  by destruct (take_rows _ _) as [rows|e].
Qed.

Lemma take_rows_Return (T : DataFrame) (idxs : list nat) :
  (∀ i, i ∈ idxs → i < length T) →
  ∃ rows, take_rows T idxs = Return rows ∧
          Forall2 (λ i r, T !! i = Some r) idxs rows.
Proof.
  induction idxs as [|i idxs IH]; intros Hlt; simpl.
  { exists []. by split. }
  destruct (lookup_lt_is_Some_2 T i) as [r Hr]; [apply Hlt; left|].
  destruct IH as (rows & -> & HF); [intros; apply Hlt; by right|].
  rewrite Hr. exists (r :: rows). split; [done|by constructor].
Qed.

Lemma occurs_once_filter T p s r0 :
  occurs_once T p s → r0 ∈ T → matches p s r0 = true →
  filter (λ r, matches p s r = true) T = [r0].
Proof.
  unfold occurs_once. intros Hlen Hin Hm.
  assert (r0 ∈ filter (λ r, matches p s r = true) T) as Hf
    by (by apply list_elem_of_filter).
  destruct (filter _ T) as [|x [|y l]]; simplify_eq/=.
  by apply list_elem_of_singleton in Hf as ->.
Qed.

Lemma kneighbors_valid rad (T : DataFrame) (q : list Q) :
  10 ≤ length T → length q = 4 →
  kneighbors {| params := {| n_neighbors := 10; radius := rad |};
                fit_X := features <$> T |} [q] 10
  = Return [argsort_nearest (features <$> T) q 10].
Proof.
  intros HN Hq. unfold kneighbors. simpl.
  rewrite Hq, length_fmap.
  destruct T as [|r T]; [simpl in HN; lia|]. simpl.
  by rewrite bool_decide_eq_false_2 by (simpl in *; lia).
Qed.

Lemma similarity_comp_valid rad df p s w T r0 :
  globals w !! df = Some T →
  filter (λ r, matches p s r = true) T = [r0] →
  10 ≤ length T →
  ∃ rows, Forall2 (λ i r, T !! i = Some r) (neighbours T r0) rows ∧
    similarity_comp_radius rad df p s w =
      (Return tt, {| globals := globals w;
                     stdout := stdout w ++ [identity <$> rows] |}).
Proof.
  intros HT Hsel HN.
  rewrite (similarity_comp_run _ _ _ _ _ T HT).
  unfold fit, query_vector. simpl. rewrite Hsel, length_fmap.
  rewrite bool_decide_eq_false_2 by lia.
  change (ravel (features <$> [r0])) with (features r0).
  rewrite kneighbors_valid by done.
  change (ravel [?l]) with (l ++ []). rewrite app_nil_r.
  destruct (take_rows_Return T (neighbours T r0)) as (rows & Hrows & HF).
  { intros i Hi%argsort_elem. by rewrite length_fmap in Hi. }
  exists rows. split; [done|]. unfold neighbours in Hrows. by rewrite Hrows.
Qed.

Lemma occurs_once_row (T : DataFrame) (p s : PyVal) :
  occurs_once T p s →
  ∃ r0, filter (λ r, matches p s r = true) T = [r0].
Proof.
  unfold occurs_once. intros H.
  destruct (filter _ T) as [|x [|y l]]; simplify_eq/=. eauto.
Qed.

Lemma projected_rows (T : DataFrame) (idxs : list nat) (rows : list Row) :
  Forall2 (λ i r, T !! i = Some r) idxs rows →
  Forall2 (λ i id, identity <$> T !! i = Some id) idxs (identity <$> rows).
Proof.
  induction 1 as [|i r idxs rows Hi _ IH]; simpl; constructor; [|done].
  by rewrite Hi.
Qed.

(** ** Ten rows of the table *)

(** C1: on a table of at least ten rows in which the queried
    (player, season) identity occurs exactly once, [similarity_comp]
    returns normally and prints one frame of exactly ten entries, each
    of them the pair of the player cell and the season cell of some row
    of the table. *)
Theorem similarity_comp_ten_rows_of_table df p s w T :
  globals w !! df = Some T →
  occurs_once T p s →
  10 ≤ length T →
  ∃ res,
    similarity_comp df p s w =
      (Return tt, {| globals := globals w; stdout := stdout w ++ [res] |}) ∧
    length res = 10 ∧
    ∀ id, id ∈ res → ∃ r, r ∈ T ∧ id = (player r, season r).
Proof.
  intros HT [r0 Hsel]%occurs_once_row HN.
  destruct (similarity_comp_valid (4 # 10) df p s w T r0 HT Hsel HN)
    as (rows & HF & Hrun).
  exists (identity <$> rows). split; [done|]. split.
  - rewrite length_fmap, <- (Forall2_length _ _ _ HF).
    unfold neighbours. rewrite argsort_length, length_fmap. lia.
  - intros id (r & -> & Hr)%list_elem_of_fmap. exists r. split; [|done].
    apply list_elem_of_lookup in Hr as [n Hn].
    destruct (Forall2_lookup_r _ _ _ _ _ HF Hn) as (i & _ & Hi).
    by eapply list_elem_of_lookup_2.
Qed.

Lemma similarity_comp_ten_rows_of_table_witness :
  ∃ res,
    similarity_comp "fw" (PyStr "A") (PyInt 1920) (world_of demo) =
      (Return tt, {| globals := globals (world_of demo);
                     stdout := stdout (world_of demo) ++ [res] |}) ∧
    length res = 10 ∧
    ∀ id, id ∈ res → ∃ r, r ∈ demo ∧ id = (player r, season r).
Proof.
  apply (similarity_comp_ten_rows_of_table "fw" (PyStr "A") (PyInt 1920)
           (world_of demo) demo).
  - reflexivity.
  - reflexivity.
  - simpl. lia.
Defined.

Lemma filter_none {A} (P : A → Prop) `{∀ x, Decision (P x)} (l : list A) :
  Forall (λ x, ¬ P x) l → filter P l = [].
Proof.
  induction 1 as [|x l Hx _ IH]; [done|].
  by rewrite filter_cons_False.
Qed.

(** ** The queried row among its own neighbours *)

Lemma py_eq_spec (a b : PyVal) : py_eq a b = true ↔ a = b.
Proof.
  destruct a, b; simpl; rewrite ?bool_decide_eq_true;
    split; congruence.
Qed.

Lemma matches_identity (p s : PyVal) (r : Row) :
  matches p s r = true ↔ identity r = (str p, s).
Proof.
  unfold matches, identity.
  rewrite andb_true_iff, bool_decide_eq_true, py_eq_spec.
  split; [by intros [-> ->]|by intros [= -> ->]].
Qed.




(** The row left out is not an accident of how ties are ordered: any
    search that answers a query vector with at most ten positions leaves
    some row of this table out of its own neighbours. *)
Lemma crowd_leaves_a_row_out (search : Matrix → list Q → list nat) :
  (∀ X q, length (search X q) ≤ 10) →
  ∃ i r, crowd !! i = Some r ∧ i ∉ search (features <$> crowd) (features r).
Proof.
  intros Hten.
  set (l := search (features <$> crowd) (features (row "A" 1920 1 2 3 4))).
  destruct (decide (Forall (λ i, i ∈ l) (seq 0 11))) as [Hall|Hsome].
  - exfalso.
    assert (seq 0 11 ⊆+ l) as Hsub.
    { apply NoDup_submseteq; [apply NoDup_seq|].
      intros i Hi. by eapply Forall_forall in Hall. }
    apply submseteq_length in Hsub. specialize (Hten (features <$> crowd)
      (features (row "A" 1920 1 2 3 4))). fold l in Hten. simpl in Hsub. lia.
  - apply not_Forall_Exists in Hsome; [|apply _].
    apply Exists_exists in Hsome as (i & Hi & Hout).
    apply elem_of_seq in Hi as [_ Hi]. exists i.
    do 11 (destruct i as [|i]; [by eexists|]). simpl in Hi. lia.
Qed.



(** ** What a call depends on and what it touches *)

Lemma similarity_comp_answer rad df p s w :
  similarity_comp_radius rad df p s w =
    ((answer rad df (globals w !! df) p s).1,
     {| globals := globals w;
        stdout := stdout w ++ (answer rad df (globals w !! df) p s).2 |}).
Proof.
  assert (∀ o : Outcome unit,
            (o, w) = (o, {| globals := globals w; stdout := stdout w ++ [] |}))
    as Hsame by (intros; destruct w; simpl; by rewrite app_nil_r).
  destruct (globals w !! df) as [T|] eqn:HT.
  - rewrite (similarity_comp_run _ _ _ _ _ T HT). simpl.
    destruct (fit _ _) as [est|e]; [|apply Hsame].
    destruct (kneighbors _ _ _) as [x|e]; [|apply Hsame].
    destruct (take_rows _ _) as [rows|e]; [done|apply Hsame].
  - unfold similarity_comp_radius, df_features, deref, mbind, Py_bind.
    rewrite HT. simpl. apply Hsame.
Qed.

Lemma new_output_answer rad df p s w :
  new_output w (similarity_comp_radius rad df p s w) =
    (answer rad df (globals w !! df) p s).2.
Proof.
  unfold new_output. rewrite similarity_comp_answer. simpl.
  by rewrite drop_app_length.
Qed.

Lemma answer_radius r1 r2 df held p s :
  answer r1 df held p s = answer r2 df held p s.
Proof.
  destruct held as [T|]; [|done]. unfold answer, fit. simpl.
  by repeat case_bool_decide.
Qed.

(** C4: the call is a function of its inputs.  Two calls with the same
    arguments in worlds whose table variable holds the same table end
    with the same outcome and print the same frames; in particular a
    second call, which fits the index anew on the table the first call
    left behind, repeats the outcome and the output of the first. *)
Theorem similarity_comp_deterministic df p s w1 w2 :
  globals w1 !! df = globals w2 !! df →
  (similarity_comp df p s w1).1 = (similarity_comp df p s w2).1 ∧
  new_output w1 (similarity_comp df p s w1) =
    new_output w2 (similarity_comp df p s w2) ∧
  (let again := (similarity_comp df p s w1).2 in
   (similarity_comp df p s again).1 = (similarity_comp df p s w1).1 ∧
   new_output again (similarity_comp df p s again) =
     new_output w1 (similarity_comp df p s w1)).
Proof.
  intros Hsame. unfold similarity_comp. cbv zeta.
  rewrite !new_output_answer.
  rewrite (similarity_comp_answer _ df p s w1),
    (similarity_comp_answer _ df p s w2). simpl.
  rewrite similarity_comp_answer. simpl.
  by rewrite Hsame.
Qed.

Lemma similarity_comp_deterministic_witness :
  (similarity_comp "fw" (PyStr "A") (PyInt 1920) (world_of demo)).1 =
    (similarity_comp "fw" (PyStr "A") (PyInt 1920)
       {| globals := {[ "fw" := demo; "mf" := crowd ]};
          stdout := [[("Z", PyInt 1718)]] |}).1 ∧
  new_output (world_of demo)
    (similarity_comp "fw" (PyStr "A") (PyInt 1920) (world_of demo)) =
    new_output {| globals := {[ "fw" := demo; "mf" := crowd ]};
                  stdout := [[("Z", PyInt 1718)]] |}
      (similarity_comp "fw" (PyStr "A") (PyInt 1920)
         {| globals := {[ "fw" := demo; "mf" := crowd ]};
            stdout := [[("Z", PyInt 1718)]] |}) ∧
  (let again :=
     (similarity_comp "fw" (PyStr "A") (PyInt 1920) (world_of demo)).2 in
   (similarity_comp "fw" (PyStr "A") (PyInt 1920) again).1 =
     (similarity_comp "fw" (PyStr "A") (PyInt 1920) (world_of demo)).1 ∧
   new_output again (similarity_comp "fw" (PyStr "A") (PyInt 1920) again) =
     new_output (world_of demo)
       (similarity_comp "fw" (PyStr "A") (PyInt 1920) (world_of demo))).
Proof.
  apply (similarity_comp_deterministic "fw" (PyStr "A") (PyInt 1920)
           (world_of demo)
           {| globals := {[ "fw" := demo; "mf" := crowd ]};
              stdout := [[("Z", PyInt 1718)]] |}).
  vm_compute. reflexivity.
Defined.

(** C6: the radius handed to [NearestNeighbors] does not reach the
    result: for every table, identity and world, any two radius values
    give the same outcome, the same printed frames and the same final
    world; the source's [radius=0.4] is one of them. *)
Theorem similarity_comp_radius_unused (r1 r2 : Q) df p s w :
  similarity_comp_radius r1 df p s w = similarity_comp_radius r2 df p s w ∧
  similarity_comp df p s w = similarity_comp_radius r1 df p s w.
Proof.
  unfold similarity_comp.
  rewrite !similarity_comp_answer.
  by rewrite (answer_radius r1 r2), (answer_radius (4 # 10) r2).
Qed.

(** C7: a call leaves the module-level tables as they were, whether it
    prints or raises: every variable holds the same rows, in the same
    order, with the same cells, and only the output grows. *)
Theorem similarity_comp_table_unchanged df p s w :
  globals (similarity_comp df p s w).2 = globals w ∧
  (∀ x, globals (similarity_comp df p s w).2 !! x = globals w !! x) ∧
  stdout w `prefix_of` stdout (similarity_comp df p s w).2.
Proof.
  unfold similarity_comp. rewrite similarity_comp_answer. simpl.
  split; [done|]. split; [done|]. by eexists.
Qed.

(** ** Failures *)

Lemma query_vector_length (T : DataFrame) (p s : PyVal) :
  length (query_vector T p s) =
    4 * length (filter (λ r, matches p s r = true) T).
Proof.
  unfold query_vector, ravel.
  induction (filter _ T) as [|r sel IH]; [done|].
  rewrite fmap_cons. simpl in *. lia.
Qed.

Lemma fit_table rad (T : DataFrame) :
  T ≠ [] →
  fit {| n_neighbors := 10; radius := rad |} (features <$> T) =
    Return {| params := {| n_neighbors := 10; radius := rad |};
              fit_X := features <$> T |}.
Proof.
  intros HT. unfold fit. simpl.
  rewrite bool_decide_eq_false_2; [done|].
  rewrite length_fmap. by destruct T.
Qed.

(** The lookup found nothing: the search rejects the empty query. *)
Lemma similarity_comp_no_match df p s w T :
  globals w !! df = Some T → T ≠ [] →
  filter (λ r, matches p s r = true) T = [] →
  similarity_comp df p s w = (Raise (ValueError ZeroFeatures), w).
Proof.
  intros HT Hne Hsel. unfold similarity_comp.
  rewrite (similarity_comp_run _ _ _ _ _ T HT), fit_table by done.
  unfold query_vector. by rewrite Hsel.
Qed.

Lemma similarity_comp_empty_table df p s w :
  globals w !! df = Some [] →
  similarity_comp df p s w = (Raise (ValueError ZeroSamples), w).
Proof.
  intros HT. unfold similarity_comp.
  by rewrite (similarity_comp_run _ _ _ _ _ [] HT).
Qed.

(** C5, as stated, fails: asking the twelve-row table for ("Z", 1920),
    which no row carries, raises the library's ValueError for a query
    array with 0 features; that is not a failure of kind NotFound. *)
Lemma similarity_comp_absent_not_NotFound :
  filter (λ r, matches (PyStr "Z") (PyInt 1920) r = true) demo = [] ∧
  similarity_comp "fw" (PyStr "Z") (PyInt 1920) (world_of demo) =
    (Raise (ValueError ZeroFeatures), world_of demo) ∧
  ¬ fails_with NotFound
      (similarity_comp "fw" (PyStr "Z") (PyInt 1920) (world_of demo)).1.
Proof.
  split; [reflexivity|]. split; [reflexivity|].
  intros (e & He & Hk). vm_compute in He. by simplify_eq.
Qed.

(** C5, amended: when no row of the table matches the identity the call
    raises a ValueError from the library's array validation (0 features
    in the empty query vector, or 0 samples when the table itself is
    empty) and leaves the world as it was, so nothing is printed; the
    failure is not of kind NotFound. *)
Theorem similarity_comp_absent_identity df p s w T :
  globals w !! df = Some T →
  filter (λ r, matches p s r = true) T = [] →
  ∃ why,
    similarity_comp df p s w = (Raise (ValueError why), w) ∧
    (T ≠ [] → why = ZeroFeatures) ∧
    (T = [] → why = ZeroSamples) ∧
    ¬ fails_with NotFound (similarity_comp df p s w).1.
Proof.
  intros HT Hsel. destruct T as [|r T].
  - exists ZeroSamples. rewrite similarity_comp_empty_table by done.
    repeat split; try done. intros (e & He & Hk). by simplify_eq/=.
  - exists ZeroFeatures. rewrite (similarity_comp_no_match _ _ _ _ _ HT) by done.
    repeat split; try done. intros (e & He & Hk). by simplify_eq/=.
Qed.

Lemma similarity_comp_absent_identity_witness :
  ∃ why,
    similarity_comp "fw" (PyStr "A") (PyStr "1920") (world_of demo) =
      (Raise (ValueError why), world_of demo) ∧
    (demo ≠ [] → why = ZeroFeatures) ∧
    (demo = [] → why = ZeroSamples) ∧
    ¬ fails_with NotFound
        (similarity_comp "fw" (PyStr "A") (PyStr "1920") (world_of demo)).1.
Proof.
  apply (similarity_comp_absent_identity "fw" (PyStr "A") (PyStr "1920")
           (world_of demo) demo).
  - reflexivity.
  - reflexivity.
Defined.

(** ** The neighbour count against the table size *)

Lemma kneighbors_too_many rad (T : DataFrame) (q : list Q) :
  length q = 4 → T ≠ [] → length T < 10 →
  kneighbors {| params := {| n_neighbors := 10; radius := rad |};
                fit_X := features <$> T |} [q] 10
  = Raise (ValueError (TooManyNeighbors (length T) 10)).
Proof.
  intros Hq Hne HN. unfold kneighbors. simpl. rewrite Hq, length_fmap.
  destruct T as [|r T]; [done|]. simpl.
  by rewrite bool_decide_eq_true_2 by (simpl in HN; lia).
Qed.

Lemma similarity_comp_small_table df p s w T r0 :
  globals w !! df = Some T →
  filter (λ r, matches p s r = true) T = [r0] →
  length T < 10 →
  similarity_comp df p s w =
    (Raise (ValueError (TooManyNeighbors (length T) 10)), w).
Proof.
  intros HT Hsel HN. unfold similarity_comp.
  assert (T ≠ []) as Hne by (by intros ->).
  rewrite (similarity_comp_run _ _ _ _ _ T HT), fit_table by done.
  rewrite kneighbors_too_many; [done| |done..].
  rewrite query_vector_length, Hsel. done.
Qed.


Lemma rows_by_position (T : DataFrame) (d : Row) (idxs : list nat)
    (rows : list Row) :
  Forall2 (λ i r, T !! i = Some r) idxs rows →
  rows = (λ i, default d (T !! i)) <$> idxs.
Proof.
  induction 1 as [|i r idxs rows Hi _ IH]; [done|].
  rewrite fmap_cons, Hi. simpl. by f_equal.
Qed.






(** ** Repeated identities *)

Lemma kneighbors_wrong_length rad (T : DataFrame) (q : list Q) :
  T ≠ [] → length q ≠ 0 → length q ≠ 4 →
  kneighbors {| params := {| n_neighbors := 10; radius := rad |};
                fit_X := features <$> T |} [q] 10
  = Raise (ValueError (IncompatibleDimension (length q) 4)).
Proof.
  intros Hne H0 H4. unfold kneighbors. simpl.
  rewrite (bool_decide_eq_false_2 (length q = 0)) by done.
  destruct T as [|r T]; [done|]. simpl.
  by rewrite bool_decide_eq_true_2.
Qed.

(** C9: when m > 1 rows match the identity, the query handed to the
    search is the concatenation of the feature vectors of all m matches,
    of length 4 m, which is not the fitted dimension 4 and is not the
    vector of the first match; the search raises instead of returning
    neighbours, the call raises a ValueError and prints nothing, and on a
    table of at least ten rows that error is the dimension mismatch
    between 4 m and 4. *)
Theorem similarity_comp_repeated_identity df p s w T :
  globals w !! df = Some T →
  1 < length (filter (λ r, matches p s r = true) T) →
  let m := length (filter (λ r, matches p s r = true) T) in
  query_vector T p s =
    concat (features <$> filter (λ r, matches p s r = true) T) ∧
  length (query_vector T p s) = 4 * m ∧
  length (query_vector T p s) ≠ 4 ∧
  (∀ r1, head (filter (λ r, matches p s r = true) T) = Some r1 →
         query_vector T p s ≠ features r1) ∧
  (∀ rad, ∃ why,
     kneighbors {| params := {| n_neighbors := 10; radius := rad |};
                   fit_X := features <$> T |} [query_vector T p s] 10
     = Raise (ValueError why)) ∧
  (∃ why, similarity_comp df p s w = (Raise (ValueError why), w)) ∧
  (10 ≤ length T →
     similarity_comp df p s w =
       (Raise (ValueError (IncompatibleDimension (4 * m) 4)), w)).
Proof.
  intros HT Hm m.
  pose proof (query_vector_length T p s) as Hlen. fold m in Hlen.
  assert (T ≠ []) as Hne by (intros ->; simpl in Hm; lia).
  assert (∀ rad,
            kneighbors {| params := {| n_neighbors := 10; radius := rad |};
                          fit_X := features <$> T |} [query_vector T p s] 10
            = Raise (ValueError (IncompatibleDimension (4 * m) 4))) as Hbig.
  { intros rad. rewrite <- Hlen. apply kneighbors_wrong_length; [done|lia..]. }
  split; [done|]. split; [done|]. split; [lia|]. split.
  { intros r1 _ Hq. rewrite Hq in Hlen. simpl in Hlen. lia. }
  split. { intros rad. eexists. apply Hbig. }
  assert (∀ why,
            kneighbors {| params := {| n_neighbors := 10; radius := 4 # 10 |};
                          fit_X := features <$> T |} [query_vector T p s] 10
            = Raise (ValueError why) →
            similarity_comp df p s w = (Raise (ValueError why), w)) as Hrun.
  { intros why Hk. unfold similarity_comp.
    rewrite (similarity_comp_run _ _ _ _ _ T HT), fit_table by done.
    by rewrite Hk. }
  split.
  - eexists. apply Hrun, Hbig.
  - intros HN. apply Hrun, Hbig.
Qed.

Lemma similarity_comp_repeated_identity_witness :
  similarity_comp "fw" (PyStr "A") (PyInt 1920) (world_of doubled) =
    (Raise (ValueError (IncompatibleDimension 8 4)), world_of doubled).
Proof.
  apply (similarity_comp_repeated_identity "fw" (PyStr "A") (PyInt 1920)
           (world_of doubled) doubled).
  - reflexivity.
  - vm_compute. lia.
  - vm_compute. lia.
Defined.

(** ** The identity filter *)

(** C10: the filter converts the player argument with [str] and
    compares the season argument as it is.  A row matches exactly when
    its player cell equals the string form of the player argument and its
    season cell equals the season argument; so an integer argument
    matches a player stored as its digits, while a season stored as the
    integer z is matched by the integer z and not by the text of its
    digits. *)
Theorem matches_player_coerced_season_exact (p s : PyVal) (r : Row) (z : Z) :
  (matches p s r = true ↔ player r = str p ∧ season r = s) ∧
  matches (PyInt z) (season r)
    (mkRow (pretty z) (season r) (c0 r) (c1 r) (c2 r) (c3 r)) = true ∧
  matches (PyStr (player r)) (PyInt z)
    (mkRow (player r) (PyInt z) (c0 r) (c1 r) (c2 r) (c3 r)) = true ∧
  matches (PyStr (player r)) (PyStr (pretty z))
    (mkRow (player r) (PyInt z) (c0 r) (c1 r) (c2 r) (c3 r)) = false.
Proof.
  split; [|split; [|split]].
  - rewrite matches_identity. unfold identity. split; [by intros [= -> ->]|].
    by intros [-> ->].
  - by apply matches_identity.
  - by apply matches_identity.
  - unfold matches. simpl. apply andb_false_r.
Qed.

(** The notebook's own call passes the season as the integer 1920. *)
Example lewandowski_season_as_integer :
  str (PyInt 1920) = "1920" ∧
  matches (PyStr "Robert Lewandowski") (PyInt 1920)
    (row "Robert Lewandowski" 1920 0 0 0 0) = true ∧
  matches (PyStr "Robert Lewandowski") (PyStr "1920")
    (row "Robert Lewandowski" 1920 0 0 0 0) = false ∧
  matches (PyInt 7) (PyInt 1920) (row "7" 1920 0 0 0 0) = true.
Proof. repeat split. Qed.

(** * Further properties of the function *)

(** ** When a call prints and when it raises *)

Lemma similarity_comp_many_matches df p s w T :
  globals w !! df = Some T →
  1 < length (filter (λ r, matches p s r = true) T) →
  similarity_comp df p s w =
    (Raise (ValueError
              (IncompatibleDimension
                 (4 * length (filter (λ r, matches p s r = true) T)) 4)), w).
Proof.
  intros HT Hm. unfold similarity_comp.
  assert (T ≠ []) as Hne by (intros ->; simpl in Hm; lia).
  rewrite (similarity_comp_run _ _ _ _ _ T HT), fit_table by done.
  rewrite <- query_vector_length.
  rewrite kneighbors_wrong_length; [done|done|..];
    rewrite query_vector_length; lia.
Qed.

Lemma similarity_comp_outcome_cases df p s w T :
  globals w !! df = Some T →
  (occurs_once T p s ∧ 10 ≤ length T ∧
   ∃ res, similarity_comp df p s w =
            (Return tt,
             {| globals := globals w; stdout := stdout w ++ [res] |}) ∧
          length res = 10)
  ∨ (¬ (occurs_once T p s ∧ 10 ≤ length T) ∧
     ∃ why, similarity_comp df p s w = (Raise (ValueError why), w)).
Proof.
  intros HT. unfold occurs_once.
  destruct (decide (T = [])) as [->|Hne].
  { right. split; [simpl; lia|]. eexists.
    by apply similarity_comp_empty_table. }
  destruct (filter (λ r, matches p s r = true) T) as [|r0 [|r1 sel]] eqn:Hsel.
  - right. split; [simpl; lia|]. eexists.
    by apply (similarity_comp_no_match _ _ _ _ T).
  - destruct (decide (length T < 10)) as [HN|HN].
    + right. split; [lia|]. eexists.
      by apply (similarity_comp_small_table df p s w T r0).
    + left. split; [done|]. split; [lia|].
      destruct (similarity_comp_valid (4 # 10) df p s w T r0 HT Hsel)
        as (rows & HF & Hrun); [lia|].
      exists (identity <$> rows). split; [done|].
      rewrite length_fmap, <- (Forall2_length _ _ _ HF).
      unfold neighbours. rewrite argsort_length, length_fmap. lia.
  - right. split; [simpl; lia|]. eexists.
    apply similarity_comp_many_matches; [done|].
    rewrite Hsel. simpl. lia.
Qed.

(** X1: with the table variable bound, a call returns exactly when the
    identity occurs exactly once and the table has at least ten rows; it
    then appends one frame of ten identities to the output.  In every
    other case it raises a ValueError and leaves the world, output
    included, as it was; it never raises an IndexError from the
    positional lookup. *)
Theorem similarity_comp_returns_iff df p s w T :
  globals w !! df = Some T →
  ((similarity_comp df p s w).1 = Return tt
     ↔ occurs_once T p s ∧ 10 ≤ length T) ∧
  ((similarity_comp df p s w).1 = Return tt →
     ∃ res, (similarity_comp df p s w).2 =
              {| globals := globals w; stdout := stdout w ++ [res] |} ∧
            length res = 10) ∧
  ((similarity_comp df p s w).1 ≠ Return tt →
     ∃ why, similarity_comp df p s w = (Raise (ValueError why), w)) ∧
  (∀ i, (similarity_comp df p s w).1 ≠ Raise (IndexError i)).
Proof.
  intros HT.
  destruct (similarity_comp_outcome_cases df p s w T HT)
    as [(Honce & HN & res & Hrun & Hlen)|(Hnot & why & Hrun)];
    rewrite Hrun; simpl.
  - split; [done|]. split; [by eauto|]. split; done.
  - split; [split; [done|by intros]|]. split; [done|]. split; [by eauto|done].
Qed.

Lemma similarity_comp_returns_iff_witness :
  (similarity_comp "fw" (PyStr "A") (PyInt 1920) (world_of doubled)).1
    = Return tt
  ↔ occurs_once doubled (PyStr "A") (PyInt 1920) ∧ 10 ≤ length doubled.
Proof.
  apply (similarity_comp_returns_iff "fw" (PyStr "A") (PyInt 1920)
           (world_of doubled) doubled).
  reflexivity.
Defined.

(** ** What the query takes from the queried row *)

(** X3: the queried row enters the search through its feature vector
    only.  Two identities that each occur exactly once in a table of at
    least ten rows and whose rows carry the same four feature values get
    the same printed frame. *)
Theorem similarity_comp_same_vector_same_frame df p s p' s' w T r0 r1 :
  globals w !! df = Some T →
  occurs_once T p s → r0 ∈ T → matches p s r0 = true →
  occurs_once T p' s' → r1 ∈ T → matches p' s' r1 = true →
  features r0 = features r1 →
  10 ≤ length T →
  similarity_comp df p s w = similarity_comp df p' s' w ∧
  ∃ res, similarity_comp df p s w =
           (Return tt,
            {| globals := globals w; stdout := stdout w ++ [res] |}).
Proof.
  intros HT Honce Hin Hm Honce' Hin' Hm' Hfeat HN.
  pose proof (occurs_once_filter T p s r0 Honce Hin Hm) as Hsel.
  pose proof (occurs_once_filter T p' s' r1 Honce' Hin' Hm') as Hsel'.
  destruct (similarity_comp_valid (4 # 10) df p s w T r0 HT Hsel HN)
    as (rows & HF & Hrun).
  destruct (similarity_comp_valid (4 # 10) df p' s' w T r1 HT Hsel' HN)
    as (rows' & HF' & Hrun').
  unfold similarity_comp. rewrite Hrun, Hrun'. split; [|by eauto].
  rewrite (rows_by_position T r0 _ _ HF), (rows_by_position T r0 _ _ HF').
  unfold neighbours. by rewrite Hfeat.
Qed.

Lemma similarity_comp_same_vector_same_frame_witness :
  similarity_comp "fw" (PyStr "A") (PyInt 1920) (world_of crowd) =
    similarity_comp "fw" (PyStr "K") (PyInt 1920) (world_of crowd) ∧
  ∃ res, similarity_comp "fw" (PyStr "A") (PyInt 1920) (world_of crowd) =
           (Return tt,
            {| globals := globals (world_of crowd);
               stdout := stdout (world_of crowd) ++ [res] |}).
Proof.
  apply (similarity_comp_same_vector_same_frame "fw"
           (PyStr "A") (PyInt 1920) (PyStr "K") (PyInt 1920)
           (world_of crowd) crowd
           (row "A" 1920 1 2 3 4) (row "K" 1920 1 2 3 4)).
  - reflexivity.
  - reflexivity.
  - left.
  - reflexivity.
  - reflexivity.
  - do 10 right. left.
  - reflexivity.
  - reflexivity.
  - simpl. lia.
Defined.

(** ** A season of the wrong type *)

(** X4: the season argument is compared without conversion, so on a
    non-empty table whose season column holds integers a season passed
    as text matches no row: for every player and every text the call
    raises the ValueError for a query with 0 features and prints
    nothing. *)
Theorem similarity_comp_text_season_on_integer_column df p txt w T :
  globals w !! df = Some T →
  T ≠ [] →
  (∀ r, r ∈ T → ∃ z, season r = PyInt z) →
  similarity_comp df p (PyStr txt) w = (Raise (ValueError ZeroFeatures), w).
Proof.
  intros HT Hne Hint.
  apply (similarity_comp_no_match _ _ _ _ T); [done..|].
  apply filter_none, Forall_forall. intros r Hr.
  destruct (Hint r Hr) as [z Hz]. unfold matches. rewrite Hz. simpl.
  by rewrite andb_false_r.
Qed.

Lemma similarity_comp_text_season_on_integer_column_witness :
  similarity_comp "fw" (PyStr "Robert Lewandowski") (PyStr "1920")
    (world_of forwards)
  = (Raise (ValueError ZeroFeatures), world_of forwards).
Proof.
  apply (similarity_comp_text_season_on_integer_column "fw"
           (PyStr "Robert Lewandowski") "1920" (world_of forwards) forwards).
  - reflexivity.
  - discriminate.
  - intros r Hr.
    repeat (apply elem_of_cons in Hr as [->|Hr]; [by eexists|]).
    by apply elem_of_nil in Hr.
Defined.

(** ** Tables with unique identities *)

Lemma unique_identity_occurs_once (T : DataFrame) (p s : PyVal) :
  NoDup (identity <$> T) → (str p, s) ∈ identity <$> T → occurs_once T p s.
Proof.
  unfold occurs_once. induction T as [|r T IH]; intros Hnd Hin.
  { by apply elem_of_nil in Hin. }
  rewrite fmap_cons in Hnd, Hin. apply NoDup_cons in Hnd as [Hr Hnd].
  rewrite filter_cons.
  destruct (decide (matches p s r = true)) as [Hm|Hm].
  - apply matches_identity in Hm. rewrite filter_none; [done|].
    apply Forall_forall. intros r' Hr' Hm'%matches_identity.
    apply Hr. rewrite Hm, <- Hm'. by apply list_elem_of_fmap_2.
  - apply IH; [done|]. apply elem_of_cons in Hin as [Hin|Hin]; [|done].
    destruct Hm. by apply matches_identity.
Qed.

(** X5: in a table of at least ten rows in which no (player, season)
    identity is repeated, a call for an identity of the table prints ten
    identities that are pairwise different: no player-season is listed
    twice. *)
Theorem similarity_comp_no_identity_twice df p s w T :
  globals w !! df = Some T →
  NoDup (identity <$> T) →
  (str p, s) ∈ identity <$> T →
  10 ≤ length T →
  ∃ res,
    similarity_comp df p s w =
      (Return tt, {| globals := globals w; stdout := stdout w ++ [res] |}) ∧
    length res = 10 ∧ NoDup res.
Proof.
  intros HT Hnd Hin HN.
  pose proof (unique_identity_occurs_once T p s Hnd Hin) as Honce.
  destruct (occurs_once_row T p s Honce) as [r0 Hsel].
  destruct (similarity_comp_valid (4 # 10) df p s w T r0 HT Hsel HN)
    as (rows & HF & Hrun).
  exists (identity <$> rows). split; [done|]. split.
  { rewrite length_fmap, <- (Forall2_length _ _ _ HF).
    unfold neighbours. rewrite argsort_length, length_fmap. lia. }
  rewrite (rows_by_position T r0 _ _ HF), <- list_fmap_compose.
  apply NoDup_fmap_2_strong; [|apply argsort_NoDup].
  intros i j Hi%argsort_elem Hj%argsort_elem Heq. simpl in Heq.
  rewrite length_fmap in Hi, Hj.
  destruct (lookup_lt_is_Some_2 T i Hi) as [ri Hri].
  destruct (lookup_lt_is_Some_2 T j Hj) as [rj Hrj].
  rewrite Hri, Hrj in Heq. simpl in Heq.
  apply (NoDup_lookup (identity <$> T) i j (identity ri)); [done|..];
    rewrite list_lookup_fmap; [by rewrite Hri|by rewrite Hrj, Heq].
Qed.

Lemma similarity_comp_no_identity_twice_witness :
  ∃ res,
    similarity_comp "fw" (PyStr "Lionel Messi") (PyInt 1920)
      (world_of forwards) =
      (Return tt, {| globals := globals (world_of forwards);
                     stdout := stdout (world_of forwards) ++ [res] |}) ∧
    length res = 10 ∧ NoDup res.
Proof.
  apply (similarity_comp_no_identity_twice "fw" (PyStr "Lionel Messi")
           (PyInt 1920) (world_of forwards) forwards).
  - reflexivity.
  - apply (bool_decide_unpack _). vm_compute. exact I.
  - do 4 right. left.
  - simpl. lia.
Defined.

(** ** Cells run one after another *)

Lemma run_call_answer (c : Call) (w : World) :
  run_call c w =
    ((answer (4 # 10) (call_df c) (globals w !! call_df c)
        (call_player c) (call_season c)).1,
     {| globals := globals w;
        stdout := stdout w ++
          (answer (4 # 10) (call_df c) (globals w !! call_df c)
             (call_player c) (call_season c)).2 |}).
Proof. unfold run_call, similarity_comp. apply similarity_comp_answer. Qed.

Lemma run_call_same_tables (c : Call) (w1 w2 : World) :
  globals w1 = globals w2 →
  (run_call c w1).1 = (run_call c w2).1 ∧
  new_output w1 (run_call c w1) = new_output w2 (run_call c w2).
Proof.
  intros Hg. unfold new_output. rewrite !run_call_answer. simpl.
  by rewrite !drop_app_length, Hg.
Qed.

Lemma session_globals (cs : list Call) (w : World) :
  globals (session cs w) = globals w.
Proof.
  revert w. induction cs as [|c cs IH]; intros w; [done|]. simpl.
  rewrite IH. by rewrite run_call_answer.
Qed.

Lemma session_stdout (cs : list Call) (w : World) :
  stdout (session cs w) =
    stdout w ++ concat ((λ c, new_output w (run_call c w)) <$> cs).
Proof.
  revert w. induction cs as [|c cs IH]; intros w; simpl.
  { by rewrite app_nil_r. }
  rewrite IH.
  assert (globals (run_call c w).2 = globals w) as Hg
    by (by rewrite run_call_answer).
  rewrite (list_fmap_ext _ (λ c', new_output w (run_call c' w)) cs)
    by (intros; by apply run_call_same_tables).
  rewrite (assoc_L (++)). f_equal.
  unfold new_output. rewrite run_call_answer. simpl.
  by rewrite drop_app_length.
Qed.

(** X6: cells that call the function do not interfere.  After any
    sequence of such cells, failed ones included, the table variables are
    as before, the output has grown by what each cell prints when run
    alone in the starting world, in cell order, and any further call ends
    and prints as it would have in the starting world. *)
Theorem session_cells_do_not_interfere (cs : list Call) (w : World) :
  globals (session cs w) = globals w ∧
  stdout (session cs w) =
    stdout w ++ concat ((λ c, new_output w (run_call c w)) <$> cs) ∧
  ∀ c, (run_call c (session cs w)).1 = (run_call c w).1 ∧
       new_output (session cs w) (run_call c (session cs w)) =
         new_output w (run_call c w).
Proof.
  split; [apply session_globals|]. split; [apply session_stdout|].
  intros c. apply run_call_same_tables, session_globals.
Qed.

(** X7: when every cell of a session names a bound table of at least
    ten rows and an identity that occurs exactly once in it, the session
    appends one frame per cell, in cell order.  Each frame holds the
    player and season cells found at ten distinct row positions of the
    table its own cell names, and it is the frame that cell prints in any
    world where its table variable holds that table, whatever the other
    table variables hold.  The six example cells are such a session. *)
Theorem session_prints_one_frame_per_cell (cs : list Call) (w : World) :
  Forall (printing_cell w) cs →
  ∃ frames,
    stdout (session cs w) = stdout w ++ frames ∧
    Forall2 (λ c frame,
               ∃ T idxs,
                 globals w !! call_df c = Some T ∧
                 length idxs = 10 ∧ NoDup idxs ∧
                 Forall2 (λ i id, ∃ r, T !! i = Some r ∧
                                       id = (player r, season r))
                         idxs frame ∧
                 ∀ w', globals w' !! call_df c = Some T →
                       new_output w' (run_call c w') = [frame])
            cs frames.
Proof.
  intros Hall. rewrite session_stdout.
  induction Hall as [|c cs (T & HT & Honce & HN) _ (frames & Heq & HF)].
  { exists []. split; [done|constructor]. }
  apply app_inv_head in Heq.
  destruct (occurs_once_row T _ _ Honce) as [r0 Hsel].
  destruct (similarity_comp_valid (4 # 10) (call_df c) (call_player c)
              (call_season c) w T r0 HT Hsel HN) as (rows & HFr & Hrun).
  exists ((identity <$> rows) :: frames). rewrite fmap_cons. simpl.
  rewrite Heq.
  assert (∀ w', globals w' !! call_df c = Some T →
                new_output w' (run_call c w') = [identity <$> rows]) as Hany.
  { intros w' HT'.
    destruct (similarity_comp_valid (4 # 10) (call_df c) (call_player c)
                (call_season c) w' T r0 HT' Hsel HN) as (rows' & HFr' & Hrun').
    unfold new_output, run_call, similarity_comp. rewrite Hrun'. simpl.
    rewrite drop_app_length.
    by rewrite (rows_by_position T r0 _ _ HFr),
      (rows_by_position T r0 _ _ HFr'). }
  rewrite (Hany w HT). split; [done|]. constructor; [|done].
  exists T, (neighbours T r0). split; [done|]. split.
  { unfold neighbours. rewrite argsort_length, length_fmap. lia. }
  split; [apply argsort_NoDup|]. split; [|done].
  clear Hrun Hany. induction HFr as [|i r idxs rows Hi _ IH]; simpl;
    constructor; [by exists r|done].
Qed.

Lemma session_prints_one_frame_per_cell_witness :
  ∃ frames,
    stdout (session example_cells notebook_world) =
      stdout notebook_world ++ frames ∧
    Forall2 (λ c frame,
               ∃ T idxs,
                 globals notebook_world !! call_df c = Some T ∧
                 length idxs = 10 ∧ NoDup idxs ∧
                 Forall2 (λ i id, ∃ r, T !! i = Some r ∧
                                       id = (player r, season r))
                         idxs frame ∧
                 ∀ w', globals w' !! call_df c = Some T →
                       new_output w' (run_call c w') = [frame])
            example_cells frames.
Proof.
  apply (session_prints_one_frame_per_cell example_cells notebook_world).
  repeat constructor.
  - exists forwards. split; [reflexivity|]. split; [reflexivity|simpl; lia].
  - exists forwards. split; [reflexivity|]. split; [reflexivity|simpl; lia].
  - exists forwards. split; [reflexivity|]. split; [reflexivity|simpl; lia].
  - exists midfielders. split; [reflexivity|]. split; [reflexivity|simpl; lia].
  - exists midfielders. split; [reflexivity|]. split; [reflexivity|simpl; lia].
  - exists midfielders. split; [reflexivity|]. split; [reflexivity|simpl; lia].
Defined.

Example example_cells_first_frame :
  head (stdout (session example_cells notebook_world)) =
    Some [ ("Robert Lewandowski", PyInt 1920); ("Karim Benzema", PyInt 1920);
           ("Luis Suarez", PyInt 1718); ("Duvan Zapata", PyInt 1819);
           ("Riyad Mahrez", PyInt 1920); ("Lionel Messi", PyInt 1819);
           ("Paulo Dybala", PyInt 1920); ("Neymar", PyInt 1718);
           ("Dimitri Payet", PyInt 1920); ("Lionel Messi", PyInt 1920) ].
Proof. vm_compute. reflexivity. Qed.

